(** * Bio.KEGG.Gene: the KEGG Gene record parser and its text rendering

    A shallow embedding of [src/Bio/KEGG/Gene/__init__.py]: the [Record]
    class, its [__str__] method and the generator [parse].

    Text is modelled as [list ascii], one element per character (code
    points 0..255).  The builtin string methods the module calls
    ([strip], [split], [in], slicing) are given as executable functions
    in [Module PyStr].  The generator [parse] is modelled by the list of
    records it yields, in order, paired with the exception (if any) that
    ends the iteration. *)

From Stdlib Require Import List Ascii String Bool Arith Lia.
Import ListNotations.

(** ** Python strings *)

Definition str := list ascii.

(** A literal: [py "abc"] is the Python string ["abc"]. *)
Definition py (s : string) : str := list_ascii_of_string s.

Definition str_eqb (a b : str) : bool :=
  if list_eq_dec ascii_dec a b then true else false.

Module PyStr.

(** [c.isspace()] for a one-character [str] with code point below 256:
    TAB, LF, VT, FF, CR, FS, GS, RS, US, SPACE, NEL and NBSP. *)
Definition isspace (c : ascii) : bool :=
  let n := nat_of_ascii c in
  ((9 <=? n) && (n <=? 13)) || ((28 <=? n) && (n <=? 32))
  || (n =? 133) || (n =? 160).

(** [c in chars] for a character. *)
Definition mem (chars : str) (c : ascii) : bool :=
  existsb (Ascii.eqb c) chars.

Fixpoint dropwhile (p : ascii -> bool) (s : str) : str :=
  match s with
  | [] => []
  | c :: s' => if p c then dropwhile p s' else s
  end.

Definition lstrip_by (p : ascii -> bool) (s : str) : str := dropwhile p s.

Definition rstrip_by (p : ascii -> bool) (s : str) : str :=
  rev (dropwhile p (rev s)).

(** [s.strip()] *)
Definition strip (s : str) : str := rstrip_by isspace (lstrip_by isspace s).

(** [s.strip(chars)] *)
Definition strip_chars (chars s : str) : str :=
  rstrip_by (mem chars) (lstrip_by (mem chars) s).


(** [s.startswith(p)] *)
Fixpoint startswith (p s : str) : bool :=
  match p, s with
  | [], _ => true
  | _ :: _, [] => false
  | a :: p', b :: s' => Ascii.eqb a b && startswith p' s'
  end.

(** [sub in s] *)
Fixpoint contains (sub s : str) : bool :=
  startswith sub s ||
  match s with
  | [] => false
  | _ :: s' => contains sub s'
  end.

(** [s.find(sub)], with [None] for -1. *)
Fixpoint find (sub s : str) : option nat :=
  if startswith sub s then Some 0
  else match s with
       | [] => None
       | _ :: s' => option_map S (find sub s')
       end.

(** [s.split()]: maximal runs of non-whitespace characters.  [cur] is
    the run being read, most recent character first. *)
Fixpoint split_ws_from (cur s : str) : list str :=
  match s with
  | [] => match cur with [] => [] | _ => [rev cur] end
  | c :: s' =>
      if isspace c
      then match cur with
           | [] => split_ws_from [] s'
           | _ => rev cur :: split_ws_from [] s'
           end
      else split_ws_from (c :: cur) s'
  end.

Definition split_ws (s : str) : list str := split_ws_from [] s.

Definition cons_head (c : ascii) (l : list str) : list str :=
  match l with
  | [] => [[c]]
  | h :: t => (c :: h) :: t
  end.

(** [s.split(sep)] for a non-empty [sep]: the text is scanned left to
    right, every occurrence of [sep] found ends a field and the scan
    resumes after it.  [skip] counts the characters of the separator
    just matched that are still to be passed over. *)
Fixpoint split_skip (sep : str) (skip : nat) (s : str) : list str :=
  match s with
  | [] => [[]]
  | c :: s' =>
      match skip with
      | S k => split_skip sep k s'
      | O =>
          if startswith sep s
          then [] :: split_skip sep (List.length sep - 1) s'
          else cons_head c (split_skip sep 0 s')
      end
  end.

Definition split (sep s : str) : list str := split_skip sep 0 s.

(** [s.count(sep)] for a non-empty [sep]: the number of non-overlapping
    occurrences, found left to right. *)
Fixpoint count_skip (sep : str) (skip : nat) (s : str) : nat :=
  match s with
  | [] => 0
  | _ :: s' =>
      match skip with
      | S k => count_skip sep k s'
      | O =>
          if startswith sep s
          then S (count_skip sep (List.length sep - 1) s')
          else count_skip sep 0 s'
      end
  end.

Definition count (sep s : str) : nat := count_skip sep 0 s.

(** [sep.join(parts)] *)
Fixpoint join (sep : str) (parts : list str) : str :=
  match parts with
  | [] => []
  | [p] => p
  | p :: ps => p ++ sep ++ join sep ps
  end.

End PyStr.

(** ** Exceptions the module can raise *)

Inductive exn : Type :=
| IndexError          (* sequence index out of range *)
| ValueError          (* tuple unpacking of the wrong number of values *)
| UnboundLocalError.  (* local variable read before assignment *)

(** ** class Record *)

Definition link_row : Type := (str * list str)%type.

(** [organism] starts as the empty string and is later a 2-tuple: [None]
    stands for the initial [""]. *)
Record GeneRecord : Type := mkRecord {
  entry : str;
  name : list str;
  definition : str;
  orthology : list (str * str);
  organism : option (str * str);
  position : str;
  motif : list link_row;
  dblinks : list link_row
}.

(** [Record.__init__] *)
Definition Record_init : GeneRecord :=
  {| entry := []; name := []; definition := []; orthology := [];
     organism := None; position := []; motif := []; dblinks := [] |}.

Definition set_entry (v : str) (r : GeneRecord) : GeneRecord :=
  mkRecord v (name r) (definition r) (orthology r) (organism r)
           (position r) (motif r) (dblinks r).
Definition set_name (v : list str) (r : GeneRecord) : GeneRecord :=
  mkRecord (entry r) v (definition r) (orthology r) (organism r)
           (position r) (motif r) (dblinks r).
Definition set_definition (v : str) (r : GeneRecord) : GeneRecord :=
  mkRecord (entry r) (name r) v (orthology r) (organism r)
           (position r) (motif r) (dblinks r).
Definition set_orthology (v : list (str * str)) (r : GeneRecord) : GeneRecord :=
  mkRecord (entry r) (name r) (definition r) v (organism r)
           (position r) (motif r) (dblinks r).
Definition set_organism (v : option (str * str)) (r : GeneRecord) : GeneRecord :=
  mkRecord (entry r) (name r) (definition r) (orthology r) v
           (position r) (motif r) (dblinks r).
Definition set_position (v : str) (r : GeneRecord) : GeneRecord :=
  mkRecord (entry r) (name r) (definition r) (orthology r) (organism r)
           v (motif r) (dblinks r).
Definition set_motif (v : list link_row) (r : GeneRecord) : GeneRecord :=
  mkRecord (entry r) (name r) (definition r) (orthology r) (organism r)
           (position r) v (dblinks r).
Definition set_dblinks (v : list link_row) (r : GeneRecord) : GeneRecord :=
  mkRecord (entry r) (name r) (definition r) (orthology r) (organism r)
           (position r) (motif r) v.

(** ** Results of fallible code *)

Inductive result (A : Type) : Type :=
| Ok (a : A)
| Raise (e : exn).
Arguments Ok {A} a.
Arguments Raise {A} e.

Definition bind {A B : Type} (m : result A) (k : A -> result B) : result B :=
  match m with
  | Ok a => k a
  | Raise e => Raise e
  end.

Notation "x <- m ;; k" := (bind m (fun x => k))
  (at level 61, m at next level, right associativity).
Notation "' p <- m ;; k" := (bind m (fun x => let p := x in k))
  (at level 61, p pattern, m at next level, right associativity).

(** [a, b = parts] *)
Definition unpack2 (parts : list str) : result (str * str) :=
  match parts with
  | [a; b] => Ok (a, b)
  | _ => Raise ValueError
  end.

(** [l[0]] *)
Definition get_first {A : Type} (l : list A) : result A :=
  match l with
  | [] => Raise IndexError
  | x :: _ => Ok x
  end.

(** [l[-1]] *)
Definition get_last {A : Type} (l : list A) : result A :=
  match rev l with
  | [] => Raise IndexError
  | x :: _ => Ok x
  end.

(** [l[-1] = x] *)
Definition set_last {A : Type} (l : list A) (x : A) : result (list A) :=
  match l with
  | [] => Raise IndexError
  | _ :: _ => Ok (removelast l ++ [x])
  end.

(** ** parse *)

Definition terminator : str := py "///".
Definition blank_label : str := py "            ".

Definition kw_ENTRY : str := py "ENTRY       ".
Definition kw_NAME : str := py "NAME        ".
Definition kw_DEFINITION : str := py "DEFINITION  ".
Definition kw_ORTHOLOGY : str := py "ORTHOLOGY   ".
Definition kw_ORGANISM : str := py "ORGANISM    ".
Definition kw_POSITION : str := py "POSITION    ".
Definition kw_MOTIF : str := py "MOTIF       ".
Definition kw_DBLINKS : str := py "DBLINKS     ".

Definition recognized : list str :=
  [kw_ENTRY; kw_NAME; kw_DEFINITION; kw_ORTHOLOGY; kw_ORGANISM;
   kw_POSITION; kw_MOTIF; kw_DBLINKS].

(** The [if keyword == ... elif ...] chain of the loop body (lines 114 to
    148).  The list [values] that [extend] mutates belongs to one row of
    one record only (it was made by a [split] of its own), so the update
    is written by value. *)
Definition handle_field (keyword data : str) (record : GeneRecord)
  : result GeneRecord :=
  if str_eqb keyword kw_ENTRY then
    let words := PyStr.split_ws data in
    w <- get_first words ;;
    Ok (set_entry w record)
  else if str_eqb keyword kw_NAME then
    let data := PyStr.strip_chars (py ";") data in
    Ok (set_name (name record ++ [data]) record)
  else if str_eqb keyword kw_DEFINITION then
    Ok (set_definition data record)
  else if str_eqb keyword kw_ORTHOLOGY then
    '(id, nm) <- unpack2 (PyStr.split (py "  ") data) ;;
    Ok (set_orthology (orthology record ++ [(id, nm)]) record)
  else if str_eqb keyword kw_ORGANISM then
    '(id, nm) <- unpack2 (PyStr.split (py "  ") data) ;;
    Ok (set_organism (Some (id, nm)) record)
  else if str_eqb keyword kw_POSITION then
    Ok (set_position data record)
  else if str_eqb keyword kw_MOTIF then
    '(key, values) <- unpack2 (PyStr.split (py ": ") data) ;;
    let values := PyStr.split_ws values in
    Ok (set_motif (motif record ++ [(key, values)]) record)
  else if str_eqb keyword kw_DBLINKS then
    if PyStr.contains (py ":") data then
      '(key, values) <- unpack2 (PyStr.split (py ": ") data) ;;
      let values := PyStr.split_ws values in
      Ok (set_dblinks (dblinks record ++ [(key, values)]) record)
    else
      '(key, values) <- get_last (dblinks record) ;;
      let values := values ++ PyStr.split_ws data in
      links <- set_last (dblinks record) (key, values) ;;
      Ok (set_dblinks links record)
  else Ok record.

(** What one iteration of the [for] loop does.  [keyword] is [None] as
    long as the local variable is unbound. *)
Inductive step : Type :=
| Yielded (record : GeneRecord)
| Updated (keyword : str) (record : GeneRecord)
| Failed (e : exn).

Definition next_keyword (keyword : option str) (line : str) : option str :=
  if negb (str_eqb (firstn 12 line) blank_label)
  then Some (firstn 12 line)
  else keyword.

Definition data_of (line : str) : str := PyStr.strip (skipn 12 line).

Definition is_terminator (line : str) : bool :=
  str_eqb (firstn 3 line) terminator.

Definition process_line (keyword : option str) (record : GeneRecord)
    (line : str) : step :=
  if is_terminator line then Yielded record
  else
    let keyword := next_keyword keyword line in
    let data := data_of line in
    match keyword with
    | None => Failed UnboundLocalError
    | Some kw =>
        match handle_field kw data record with
        | Ok record => Updated kw record
        | Raise e => Failed e
        end
    end.

(** The generator run on the lines of [handle]: the records yielded, in
    order, and the exception that ended the iteration, if one did.  After a
    [yield] the loop goes on with a fresh record and the same [keyword]. *)
Fixpoint parse_from (keyword : option str) (record : GeneRecord)
    (handle : list str) : list GeneRecord * option exn :=
  match handle with
  | [] => ([], None)
  | line :: rest =>
      match process_line keyword record line with
      | Yielded r =>
          let (ys, e) := parse_from keyword Record_init rest in (r :: ys, e)
      | Updated kw r => parse_from (Some kw) r rest
      | Failed e => ([], Some e)
      end
  end.

Definition parse (handle : list str) : list GeneRecord * option exn :=
  parse_from None Record_init handle.

Definition yielded (handle : list str) : list GeneRecord := fst (parse handle).
Definition raised (handle : list str) : option exn := snd (parse handle).

Definition count_terminators (handle : list str) : nat :=
  List.length (filter is_terminator handle).

(** ** Record.__str__ *)

(** A wrap rule [[indent, connect, (splitstr, connect, splitafter,
    splitoffset), ...]]. *)
Record wrap_rule : Type := mkWrap {
  wrap_indent : nat;
  wrap_connect : str;
  wrap_breaks : list (str * str * nat * nat)
}.

Definition name_wrap : wrap_rule :=
  mkWrap 0 (py "") [(py " ", py "$", 1, 1); (py "-", py "$", 1, 1)].

Definition id_wrap (indent : nat) : wrap_rule :=
  mkWrap indent (py "") [(py " ", py "", 1, 0)].

Section Serializer.

(** [Bio.KEGG._write_kegg] and [Bio.KEGG._wrap_kegg] are imported from
    the parent package. *)
Variable _write_kegg : str -> list str -> str.
Variable _wrap_kegg : str -> wrap_rule -> str.

Definition _entry (self : GeneRecord) : str :=
  _write_kegg (py "ENTRY") [entry self].

Definition _name (self : GeneRecord) : str :=
  _write_kegg (py "NAME")
              (map (fun l => _wrap_kegg l name_wrap) (name self)).

Definition _definition (self : GeneRecord) : str :=
  _write_kegg (py "DEFINITION") [definition self].

Definition _dblinks (self : GeneRecord) : str :=
  let s := map (fun entry : link_row =>
                  fst entry ++ py ": " ++ PyStr.join (py " ") (snd entry))
               (dblinks self) in
  _write_kegg (py "DBLINKS")
              (map (fun l => _wrap_kegg l (id_wrap 9)) s).

Definition Record_str (self : GeneRecord) : str :=
  ((_entry self ++ _name self) ++ _dblinks self) ++ terminator.

End Serializer.

(** ** The sample of the module's docstring *)

Definition LF : str := [ascii_of_nat 10].

Definition sample : list str :=
  [ py "ENTRY       b1174             CDS       E.coli" ++ LF;
    py "NAME        minE;" ++ LF;
    py "DBLINKS     NCBI-GeneID: 12930923" ++ LF;
    py "                987984" ++ LF;
    py "///" ++ LF ].

(** ** The state of the loop, and shapes of text *)

(** The values of the locals [keyword] and [record] once the loop has
    consumed [handle], or the exception that stopped it. *)
Fixpoint final_state (keyword : option str) (record : GeneRecord)
    (handle : list str) : result (option str * GeneRecord) :=
  match handle with
  | [] => Ok (keyword, record)
  | line :: rest =>
      match process_line keyword record line with
      | Yielded _ => final_state keyword Record_init rest
      | Updated kw r => final_state (Some kw) r rest
      | Failed e => Raise e
      end
  end.

(** The label column of the last line of [handle] that is not a terminator
    and whose label is not blank; [keyword] when there is none. *)
Fixpoint last_label (keyword : option str) (handle : list str) : option str :=
  match handle with
  | [] => keyword
  | line :: rest =>
      last_label (if is_terminator line then keyword
                  else next_keyword keyword line) rest
  end.


(** No whitespace character in [s]. *)
Definition no_space (s : str) : bool :=
  forallb (fun c => negb (PyStr.isspace c)) s.

(** A non-empty text without whitespace. *)
Definition is_token (t : str) : bool :=
  match t with
  | [] => false
  | _ :: _ => no_space t
  end.

(** [s] is empty or starts with a whitespace character. *)
Definition at_space (s : str) : Prop :=
  match s with
  | [] => True
  | c :: _ => PyStr.isspace c = true
  end.

(** [s] neither starts nor ends with a character satisfying [p]. *)
Definition trimmed (p : ascii -> bool) (s : str) : Prop :=
  (forall c t, s = c :: t -> p c = false)
  /\ (forall t c, s = t ++ [c] -> p c = false).

(** One row of [motif] or [dblinks] carries on another: same database,
    the ids of the other first. *)
Definition row_extends (old new : link_row) : Prop :=
  fst new = fst old /\ exists more, snd new = snd old ++ more.

(** Within one record, nothing parsed so far is lost in [r']: the list
    fields of [r] are still there, in place, with more after them. *)
Definition grows (r r' : GeneRecord) : Prop :=
  (exists more, name r' = name r ++ more)
  /\ (exists more, orthology r' = orthology r ++ more)
  /\ (exists more, motif r' = motif r ++ more)
  /\ (exists kept more,
        dblinks r' = kept ++ more /\ Forall2 row_extends (dblinks r) kept).

(** What the parser guarantees of the text it stores. *)
Definition tokens_ok (r : GeneRecord) : Prop :=
  no_space (entry r) = true
  /\ Forall (trimmed (PyStr.mem (py ";"))) (name r)
  /\ trimmed PyStr.isspace (definition r)
  /\ trimmed PyStr.isspace (position r)
  /\ Forall (fun row : link_row => Forall (fun t => is_token t = true) (snd row))
            (motif r)
  /\ Forall (fun row : link_row => Forall (fun t => is_token t = true) (snd row))
            (dblinks r).

(** The branches of the [if keyword == ... elif ...] chain that end
    without raising, one constructor per branch: [field_update k d r r']
    when the line of keyword [k] and data [d] turns [r] into [r']. *)
Inductive field_update : str -> str -> GeneRecord -> GeneRecord -> Prop :=
| upd_ENTRY d r w more :
    PyStr.split_ws d = w :: more ->
    field_update kw_ENTRY d r (set_entry w r)
| upd_NAME d r :
    field_update kw_NAME d r
      (set_name (name r ++ [PyStr.strip_chars (py ";") d]) r)
| upd_DEFINITION d r :
    field_update kw_DEFINITION d r (set_definition d r)
| upd_ORTHOLOGY d r a b :
    PyStr.split (py "  ") d = [a; b] ->
    field_update kw_ORTHOLOGY d r (set_orthology (orthology r ++ [(a, b)]) r)
| upd_ORGANISM d r a b :
    PyStr.split (py "  ") d = [a; b] ->
    field_update kw_ORGANISM d r (set_organism (Some (a, b)) r)
| upd_POSITION d r :
    field_update kw_POSITION d r (set_position d r)
| upd_MOTIF d r a b :
    PyStr.split (py ": ") d = [a; b] ->
    field_update kw_MOTIF d r
      (set_motif (motif r ++ [(a, PyStr.split_ws b)]) r)
| upd_DBLINKS_new d r a b :
    PyStr.contains (py ":") d = true ->
    PyStr.split (py ": ") d = [a; b] ->
    field_update kw_DBLINKS d r
      (set_dblinks (dblinks r ++ [(a, PyStr.split_ws b)]) r)
| upd_DBLINKS_more d r front key values :
    PyStr.contains (py ":") d = false ->
    dblinks r = front ++ [(key, values)] ->
    field_update kw_DBLINKS d r
      (set_dblinks (front ++ [(key, values ++ PyStr.split_ws d)]) r)
| upd_other k d r :
    ~ In k recognized ->
    field_update k d r r.

(** * Properties *)

(** ** Equality test on strings *)

Lemma str_eqb_eq (a b : str) : str_eqb a b = true <-> a = b.
Proof.
  unfold str_eqb. destruct (list_eq_dec ascii_dec a b); split; congruence.
Qed.

Lemma str_eqb_neq (a b : str) : str_eqb a b = false <-> a <> b.
Proof.
  unfold str_eqb. destruct (list_eq_dec ascii_dec a b); split; congruence.
Qed.

(** ** Checks on the sample *)

Example parse_sample :
  parse sample =
  ([ {| entry := py "b1174"; name := [py "minE"]; definition := [];
        orthology := []; organism := None; position := []; motif := [];
        dblinks := [(py "NCBI-GeneID", [py "12930923"; py "987984"])] |} ],
   None).
Proof. reflexivity. Qed.

Example split_examples :
  PyStr.split (py "  ") (py "K00001  description text")
    = [py "K00001"; py "description text"]
  /\ PyStr.split (py "  ") (py "a    b") = [py "a"; py ""; py "b"]
  /\ PyStr.split (py "  ") (py "a   b") = [py "a"; py " b"]
  /\ PyStr.split (py ": ") (py "") = [py ""]
  /\ PyStr.split_ws (py "  a  bc d ") = [py "a"; py "bc"; py "d"]
  /\ PyStr.strip_chars (py ";") (py ";;a;b;") = py "a;b".
Proof. repeat split; reflexivity. Qed.

Example orthology_examples :
  process_line None Record_init (py "ORTHOLOGY   K00001  description text")
    = Updated kw_ORTHOLOGY
        (set_orthology [(py "K00001", py "description text")] Record_init)
  /\ process_line None Record_init (py "ORTHOLOGY   K00001 description text")
     = Failed ValueError.
Proof. split; reflexivity. Qed.

Example short_line_examples :
  process_line None Record_init (py "") = Updated (py "") Record_init
  /\ process_line None Record_init LF = Updated LF Record_init
  /\ parse [py "NAME        minE" ++ LF; py ""; py "            minD" ++ LF;
            py "///" ++ LF]
     = ([set_name [py "minE"] Record_init], None).
Proof. repeat split; reflexivity. Qed.

(** ** Facts on the string methods *)

Module PyStrFacts.
Import PyStr.

Lemma startswith_nil_r (p : str) : p <> [] -> startswith p [] = false.
Proof. destruct p; [congruence | reflexivity]. Qed.

Lemma startswith_skipn (p s : str) :
  startswith p s = true -> s = p ++ skipn (List.length p) s.
Proof.
  revert s. induction p as [|a p IH]; intros s H; [reflexivity|].
  destruct s as [|b s]; [discriminate|]. simpl in H.
  apply andb_prop in H. destruct H as [Hab Hps].
  apply Ascii.eqb_eq in Hab. subst b. simpl. f_equal. now apply IH.
Qed.

Lemma join_cons (sep p : str) (ps : list str) :
  ps <> [] -> join sep (p :: ps) = p ++ sep ++ join sep ps.
Proof. destruct ps; [congruence | reflexivity]. Qed.

Lemma split_skip_skipn (sep : str) (n : nat) (s : str) :
  split_skip sep n s = split_skip sep 0 (skipn n s).
Proof.
  revert n. induction s as [|c s IH]; intros [|n]; try reflexivity.
  simpl. apply IH.
Qed.

Lemma count_skip_skipn (sep : str) (n : nat) (s : str) :
  count_skip sep n s = count_skip sep 0 (skipn n s).
Proof.
  revert n. induction s as [|c s IH]; intros [|n]; try reflexivity.
  simpl. apply IH.
Qed.

Section Separator.
Variable sep : str.
Hypothesis sep_nonempty : sep <> [].

Lemma skipn_sep_tail (c : ascii) (s : str) :
  skipn (List.length sep - 1) s = skipn (List.length sep) (c :: s).
Proof.
  destruct sep as [|a p]; [congruence|].
  simpl. now rewrite Nat.sub_0_r.
Qed.

Lemma find_nil : find sep [] = None.
Proof. simpl. now rewrite startswith_nil_r. Qed.

(** No occurrence: the text is the only field. *)
Lemma split_find_none (s : str) : find sep s = None -> split sep s = [s].
Proof.
  unfold split. induction s as [|c s IH]; intros H; [reflexivity|].
  cbn [find] in H. cbn [split_skip].
  destruct (startswith sep (c :: s)); [discriminate|].
  destruct (find sep s); [discriminate|].
  now rewrite IH.
Qed.

(** An occurrence: the first field ends at the leftmost one, and the
    rest of the text is split in turn. *)
Lemma split_find_some (s : str) (i : nat) :
  find sep s = Some i ->
  split sep s = firstn i s :: split sep (skipn (i + List.length sep) s).
Proof.
  unfold split. revert i. induction s as [|c s IH]; intros i H.
  - rewrite find_nil in H. discriminate.
  - cbn [find] in H. cbn [split_skip].
    destruct (startswith sep (c :: s)) eqn:E.
    + injection H as <-. cbn [firstn Nat.add].
      now rewrite split_skip_skipn, (skipn_sep_tail c).
    + destruct (find sep s) as [j|] eqn:F; [|discriminate].
      injection H as <-. rewrite (IH j eq_refl). reflexivity.
Qed.

Lemma count_find_none (s : str) : find sep s = None -> count sep s = 0.
Proof.
  unfold count. induction s as [|c s IH]; intros H; [reflexivity|].
  cbn [find] in H. cbn [count_skip].
  destruct (startswith sep (c :: s)); [discriminate|].
  destruct (find sep s); [discriminate|].
  now apply IH.
Qed.

Lemma count_find_some (s : str) (i : nat) :
  find sep s = Some i ->
  count sep s = S (count sep (skipn (i + List.length sep) s)).
Proof.
  unfold count. revert i. induction s as [|c s IH]; intros i H.
  - rewrite find_nil in H. discriminate.
  - cbn [find] in H. cbn [count_skip].
    destruct (startswith sep (c :: s)) eqn:E.
    + injection H as <-. cbn [Nat.add].
      now rewrite count_skip_skipn, (skipn_sep_tail c).
    + destruct (find sep s) as [j|] eqn:F; [|discriminate].
      injection H as <-. now rewrite (IH j eq_refl).
Qed.

Lemma count_zero_find (s : str) : count sep s = 0 <-> find sep s = None.
Proof.
  split; [|apply count_find_none].
  destruct (find sep s) as [i|] eqn:F; [|reflexivity].
  rewrite (count_find_some _ _ F). discriminate.
Qed.

(** [len(s.split(sep)) == s.count(sep) + 1] *)
Lemma split_length (s : str) :
  List.length (split sep s) = S (count sep s).
Proof.
  remember (List.length s) as n eqn:Hn.
  revert s Hn. induction n as [n IH] using lt_wf_ind. intros s Hn.
  destruct (find sep s) as [i|] eqn:F.
  - rewrite (split_find_some _ _ F), (count_find_some _ _ F).
    cbn [List.length]. f_equal.
    apply (IH (List.length (skipn (i + List.length sep) s))); [|reflexivity].
    rewrite length_skipn. subst n.
    assert (0 < List.length sep) by (destruct sep; [congruence | simpl; lia]).
    assert (0 < List.length s).
    { destruct s; [rewrite find_nil in F; discriminate | simpl; lia]. }
    lia.
  - now rewrite (split_find_none _ F), (count_find_none _ F).
Qed.

(** Exactly one occurrence: two fields, cut at that occurrence. *)
Lemma split_count_one (s : str) :
  count sep s = 1 ->
  exists i, find sep s = Some i /\
            split sep s = [firstn i s; skipn (i + List.length sep) s].
Proof.
  intros H. destruct (find sep s) as [i|] eqn:F.
  - exists i. split; [reflexivity|].
    rewrite (split_find_some _ _ F). f_equal.
    apply split_find_none. apply count_zero_find.
    rewrite (count_find_some _ _ F) in H. congruence.
  - rewrite (count_find_none _ F) in H. discriminate.
Qed.

Lemma split_two_fields (s : str) :
  (exists a b, split sep s = [a; b]) <-> count sep s = 1.
Proof.
  split.
  - intros (a & b & H). pose proof (split_length s) as L.
    rewrite H in L. simpl in L. congruence.
  - intros H. destruct (split_count_one _ H) as (i & _ & E). eauto.
Qed.

Lemma contains_find (s : str) : contains sep s = false <-> find sep s = None.
Proof.
  induction s as [|c s IH].
  - simpl. rewrite startswith_nil_r by assumption. tauto.
  - cbn [contains find]. destruct (startswith sep (c :: s)).
    + simpl. split; discriminate.
    + rewrite orb_false_l, IH. destruct (find sep s); simpl; split; congruence.
Qed.

Lemma contains_count (s : str) : contains sep s = false <-> count sep s = 0.
Proof. now rewrite contains_find, count_zero_find. Qed.

(** [sep.join(s.split(sep)) == s] *)
Lemma join_split (s : str) : join sep (split sep s) = s.
Proof.
  remember (List.length s) as n eqn:Hn.
  revert s Hn. induction n as [n IH] using lt_wf_ind. intros s Hn.
  destruct (find sep s) as [i|] eqn:F.
  - rewrite (split_find_some _ _ F).
    pose proof (split_length (skipn (i + List.length sep) s)) as L.
    rewrite join_cons by (intros E; rewrite E in L; discriminate).
    rewrite (IH (List.length (skipn (i + List.length sep) s))); [| |reflexivity].
    + clear IH L Hn. revert i F. induction s as [|c s IHs]; intros i F.
      * rewrite find_nil in F. discriminate.
      * cbn [find] in F. destruct (startswith sep (c :: s)) eqn:P.
        -- injection F as <-. cbn [firstn Nat.add app].
           symmetry. now apply startswith_skipn.
        -- destruct (find sep s) as [j|] eqn:G; [|discriminate].
           injection F as <-. cbn [firstn Nat.add skipn app].
           f_equal. now apply IHs.
    + rewrite length_skipn. subst n.
      assert (0 < List.length sep) by (destruct sep; [congruence | simpl; lia]).
      assert (0 < List.length s).
      { destruct s; [rewrite find_nil in F; discriminate | simpl; lia]. }
      lia.
  - now rewrite (split_find_none _ F).
Qed.

End Separator.

End PyStrFacts.

(** ** Facts on [strip] *)

Module StripFacts.
Import PyStr.

(** Only characters satisfying [p] are dropped, and dropping stops at the
    first character that does not satisfy it. *)
Lemma dropwhile_spec (p : ascii -> bool) (s : str) :
  exists pre, s = pre ++ dropwhile p s
              /\ forallb p pre = true
              /\ (forall c t, dropwhile p s = c :: t -> p c = false).
Proof.
  induction s as [|c s (pre & E & A & N)].
  - exists []. repeat split. discriminate.
  - simpl. destruct (p c) eqn:Pc.
    + exists (c :: pre). simpl. rewrite Pc, A. repeat split; [|exact N].
      now f_equal.
    + exists []. repeat split. intros c' t [= <- _]. exact Pc.
Qed.

Lemma forallb_rev (p : ascii -> bool) (s : str) :
  forallb p (rev s) = forallb p s.
Proof.
  induction s as [|c s IH]; [reflexivity|].
  simpl. rewrite forallb_app, IH. simpl. rewrite andb_true_r. apply andb_comm.
Qed.

Lemma rstrip_by_spec (p : ascii -> bool) (s : str) :
  exists post, s = rstrip_by p s ++ post
               /\ forallb p post = true
               /\ (forall t c, rstrip_by p s = t ++ [c] -> p c = false).
Proof.
  unfold rstrip_by. destruct (dropwhile_spec p (rev s)) as (pre & E & A & N).
  exists (rev pre). repeat split.
  - rewrite <- rev_app_distr, <- E. now rewrite rev_involutive.
  - now rewrite forallb_rev.
  - intros t c H. apply (f_equal (@rev ascii)) in H.
    rewrite rev_involutive, rev_app_distr in H. simpl in H. eauto.
Qed.


End StripFacts.

(** ** The loop body *)




Lemma handle_MOTIF (data : str) (r : GeneRecord) :
  handle_field kw_MOTIF data r =
  ('(key, values) <- unpack2 (PyStr.split (py ": ") data) ;;
   Ok (set_motif (motif r ++ [(key, PyStr.split_ws values)]) r)).
Proof. reflexivity. Qed.

Lemma handle_DBLINKS (data : str) (r : GeneRecord) :
  handle_field kw_DBLINKS data r =
  if PyStr.contains (py ":") data then
    '(key, values) <- unpack2 (PyStr.split (py ": ") data) ;;
    Ok (set_dblinks (dblinks r ++ [(key, PyStr.split_ws values)]) r)
  else
    '(key, values) <- get_last (dblinks r) ;;
    links <- set_last (dblinks r) (key, values ++ PyStr.split_ws data) ;;
    Ok (set_dblinks links r).
Proof. reflexivity. Qed.

Lemma handle_unrecognized (keyword data : str) (r : GeneRecord) :
  ~ In keyword recognized -> handle_field keyword data r = Ok r.
Proof.
  intros H. unfold handle_field.
  repeat match goal with
  | |- context [str_eqb keyword ?k] =>
      let E := fresh in
      destruct (str_eqb keyword k) eqn:E;
      [ apply str_eqb_eq in E; exfalso; apply H; subst keyword;
        unfold recognized; simpl; tauto | ]
  end.
  reflexivity.
Qed.

Lemma recognized_length (keyword : str) :
  In keyword recognized -> List.length keyword = 12.
Proof.
  unfold recognized. simpl.
  intros H; repeat destruct H as [<-|H]; try reflexivity; contradiction.
Qed.

Lemma process_line_terminator (kw : option str) (r : GeneRecord) (line : str) :
  is_terminator line = true -> process_line kw r line = Yielded r.
Proof. intros H. unfold process_line. now rewrite H. Qed.

Lemma process_line_field (kw : option str) (r : GeneRecord) (line k : str) :
  is_terminator line = false ->
  next_keyword kw line = Some k ->
  process_line kw r line =
  match handle_field k (data_of line) r with
  | Ok r' => Updated k r'
  | Raise e => Failed e
  end.
Proof. intros T K. unfold process_line. now rewrite T, K. Qed.

Lemma process_line_not_yield (kw : option str) (r r' : GeneRecord) (line : str) :
  is_terminator line = false -> process_line kw r line <> Yielded r'.
Proof.
  intros T. unfold process_line. rewrite T.
  destruct (next_keyword kw line); [|discriminate].
  destruct (handle_field _ _ _); discriminate.
Qed.

Lemma blank_label_not_terminator (line : str) :
  firstn 12 line = blank_label -> is_terminator line = false.
Proof.
  intros H. unfold is_terminator. apply str_eqb_neq.
  replace (firstn 3 line) with (firstn 3 (firstn 12 line))
    by (rewrite firstn_firstn; reflexivity).
  rewrite H. discriminate.
Qed.

Lemma blank_label_keeps_keyword (kw : option str) (line : str) :
  firstn 12 line = blank_label -> next_keyword kw line = kw.
Proof. intros H. unfold next_keyword. now rewrite H. Qed.

Lemma labelled_sets_keyword (kw : option str) (line : str) :
  firstn 12 line <> blank_label -> next_keyword kw line = Some (firstn 12 line).
Proof.
  intros H. unfold next_keyword. apply str_eqb_neq in H. now rewrite H.
Qed.

(** ** The generator *)

Lemma parse_from_terminator (kw : option str) (r : GeneRecord) (t : str)
    (rest : list str) :
  is_terminator t = true ->
  parse_from kw r (t :: rest) =
  (r :: fst (parse_from kw Record_init rest),
   snd (parse_from kw Record_init rest)).
Proof.
  intros H. cbn [parse_from]. rewrite (process_line_terminator _ _ _ H).
  now destruct (parse_from kw Record_init rest).
Qed.

Lemma count_terminators_app (a b : list str) :
  count_terminators (a ++ b) = count_terminators a + count_terminators b.
Proof. unfold count_terminators. now rewrite filter_app, length_app. Qed.

Lemma count_terminators_cons (l : str) (ls : list str) :
  count_terminators (l :: ls) =
  (if is_terminator l then 1 else 0) + count_terminators ls.
Proof. unfold count_terminators. simpl. now destruct (is_terminator l). Qed.

(** A run that does not raise splits at any point of the input: the
    records of the first part, one per terminator line in it, then those
    of the second part started in the state the first part left. *)
Lemma parse_from_app (pre rest : list str) :
  forall kw r ys,
    parse_from kw r (pre ++ rest) = (ys, None) ->
    exists kw' r' ys1 ys2,
      ys = ys1 ++ ys2
      /\ List.length ys1 = count_terminators pre
      /\ parse_from kw' r' rest = (ys2, None).
Proof.
  induction pre as [|l pre IH]; intros kw r ys H.
  - exists kw, r, [], ys. auto.
  - rewrite count_terminators_cons. simpl in H.
    destruct (is_terminator l) eqn:T.
    + rewrite (process_line_terminator _ _ _ T) in H.
      destruct (parse_from kw Record_init (pre ++ rest)) as [zs e] eqn:P.
      injection H as <- ->.
      destruct (IH _ _ _ P) as (kw' & r' & ys1 & ys2 & E & L & Q).
      exists kw', r', (r :: ys1), ys2. subst zs. simpl. auto.
    + destruct (process_line kw r l) as [r1|k r1|e] eqn:S.
      * now apply process_line_not_yield in S.
      * destruct (IH _ _ _ H) as (kw' & r' & ys1 & ys2 & E & L & Q).
        exists kw', r', ys1, ys2. auto.
      * discriminate.
Qed.

Lemma parse_from_terminator_content (pre post : list str) (t t' : str) :
  is_terminator t = true -> is_terminator t' = true ->
  forall kw r,
    parse_from kw r (pre ++ t :: post) = parse_from kw r (pre ++ t' :: post).
Proof.
  intros T T'. induction pre as [|l pre IH]; intros kw r.
  - simpl app. now rewrite !parse_from_terminator.
  - simpl. destruct (process_line kw r l); try reflexivity.
    + now rewrite IH.
    + apply IH.
Qed.

Lemma parse_from_no_terminator (tail : list str) :
  Forall (fun l => is_terminator l = false) tail ->
  forall kw r, fst (parse_from kw r tail) = [].
Proof.
  induction 1 as [|l tail T _ IH]; intros kw r; [reflexivity|].
  simpl. destruct (process_line kw r l) as [r1|k r1|e] eqn:S.
  - now apply process_line_not_yield in S.
  - apply IH.
  - reflexivity.
Qed.

Lemma parse_from_drop_tail (pre tail : list str) :
  Forall (fun l => is_terminator l = false) tail ->
  forall kw r, fst (parse_from kw r (pre ++ tail)) = fst (parse_from kw r pre).
Proof.
  intros T. induction pre as [|l pre IH]; intros kw r.
  - simpl. now apply parse_from_no_terminator.
  - simpl. destruct (process_line kw r l) as [r1|k r1|e].
    + specialize (IH kw Record_init).
      destruct (parse_from kw Record_init (pre ++ tail)),
               (parse_from kw Record_init pre).
      simpl in *. now f_equal.
    + apply IH.
    + reflexivity.
Qed.

Lemma unpack2_raise (parts : list str) :
  List.length parts <> 2 -> unpack2 parts = Raise ValueError.
Proof.
  destruct parts as [|a [|b [|c t]]]; simpl; intros H; try reflexivity.
  now contradiction H.
Qed.

Lemma two_spaces_nonempty : py "  " <> [].
Proof. discriminate. Qed.

Lemma colon_space_nonempty : py ": " <> [].
Proof. discriminate. Qed.

(** The row a ["key: values"] text gives when cut at index [i]. *)
Lemma split_colon_row (data : str) :
  PyStr.count (py ": ") data = 1 ->
  exists i, PyStr.find (py ": ") data = Some i
            /\ unpack2 (PyStr.split (py ": ") data)
               = Ok (firstn i data, skipn (i + 2) data).
Proof.
  intros H.
  destruct (PyStrFacts.split_count_one _ colon_space_nonempty _ H) as (i & F & E).
  exists i. split; [exact F|]. now rewrite E.
Qed.

Lemma split_colon_raise (data : str) :
  PyStr.count (py ": ") data <> 1 ->
  unpack2 (PyStr.split (py ": ") data) = Raise ValueError.
Proof.
  intros H. apply unpack2_raise.
  rewrite (PyStrFacts.split_length _ colon_space_nonempty). lia.
Qed.

(** * The claims *)

(** ** C1 *)

(** C1, as the code behaves: a DBLINKS line whose data has no colon, met
    while the current record has no DBLINKS pair, makes [record.dblinks[-1]]
    fail: the iteration ends with [IndexError], the out-of-range failure of
    the list access, and yields nothing from that line on. *)
Theorem dblinks_continuation_without_pair
    (kw : option str) (r : GeneRecord) (line : str) (rest : list str) :
  is_terminator line = false ->
  next_keyword kw line = Some kw_DBLINKS ->
  PyStr.contains (py ":") (data_of line) = false ->
  dblinks r = [] ->
  process_line kw r line = Failed IndexError
  /\ parse_from kw r (line :: rest) = ([], Some IndexError).
Proof.
  intros T K C D.
  assert (S : process_line kw r line = Failed IndexError).
  { rewrite (process_line_field _ _ _ _ T K), handle_DBLINKS, C, D.
    reflexivity. }
  split; [exact S|]. cbn [parse_from]. now rewrite S.
Qed.

Lemma dblinks_continuation_without_pair_witness :
  process_line None Record_init (py "DBLINKS     12930923" ++ LF)
    = Failed IndexError
  /\ parse_from None Record_init
       [py "DBLINKS     12930923" ++ LF; py "///" ++ LF]
     = ([], Some IndexError).
Proof.
  apply (dblinks_continuation_without_pair
           None Record_init (py "DBLINKS     12930923" ++ LF) [py "///" ++ LF]);
    reflexivity.
Defined.

(** C1 as stated fails: on a first DBLINKS line without a colon the
    exception raised is [IndexError] itself, not an error of another
    kind. *)
Lemma dblinks_continuation_dedicated_error_counterexample :
  let line := py "DBLINKS     12930923" ++ LF in
  PyStr.contains (py ":") (data_of line) = false
  /\ dblinks Record_init = []
  /\ raised [line] = Some IndexError
  /\ ~ (exists e, raised [line] = Some e /\ e <> IndexError).
Proof.
  cbv zeta. repeat split.
  intros (e & H & N). apply N.
  change (Some IndexError = Some e) in H. congruence.
Qed.

(** ** C2 *)




(** ** C3 *)






(** ** C4 *)

(** C4, as the code behaves, for a DBLINKS line met while [dblinks] is not
    empty.  Data with a colon is unpacked from [data.split(": ")] into
    exactly two values: with exactly one [": "] separator the data is cut
    there and (key, whitespace-split values) is appended as a new pair;
    with none or with several the line raises [ValueError].  Data with no
    colon extends the ids of the last pair with its whitespace-split
    tokens and leaves the number of pairs as it was. *)
Theorem dblinks_line_with_pair (kw : option str) (r : GeneRecord) (line : str) :
  is_terminator line = false ->
  next_keyword kw line = Some kw_DBLINKS ->
  dblinks r <> [] ->
  let data := data_of line in
  (PyStr.contains (py ":") data = true ->
   PyStr.count (py ": ") data = 1 ->
   exists i, PyStr.find (py ": ") data = Some i
     /\ process_line kw r line =
        Updated kw_DBLINKS
          (set_dblinks
             (dblinks r ++
              [(firstn i data, PyStr.split_ws (skipn (i + 2) data))]) r))
  /\ (PyStr.contains (py ":") data = true ->
      PyStr.count (py ": ") data <> 1 ->
      process_line kw r line = Failed ValueError)
  /\ (PyStr.contains (py ":") data = false ->
      exists front key values,
        dblinks r = front ++ [(key, values)]
        /\ process_line kw r line =
           Updated kw_DBLINKS
             (set_dblinks
                (front ++ [(key, values ++ PyStr.split_ws data)]) r)).
Proof.
  intros T K D data. repeat split.
  - intros C H. destruct (split_colon_row _ H) as (i & F & E).
    exists i. split; [exact F|].
    rewrite (process_line_field _ _ _ _ T K), handle_DBLINKS.
    fold data. now rewrite C, E.
  - intros C H. rewrite (process_line_field _ _ _ _ T K), handle_DBLINKS.
    fold data. now rewrite C, (split_colon_raise _ H).
  - intros C. destruct (exists_last D) as (front & [key values] & E).
    exists front, key, values. split; [exact E|].
    rewrite (process_line_field _ _ _ _ T K), handle_DBLINKS.
    fold data. rewrite C. unfold get_last, set_last.
    rewrite E, rev_app_distr. simpl.
    rewrite removelast_last. now destruct front.
Qed.

Lemma dblinks_line_with_pair_witness :
  let r := set_dblinks [(py "NCBI-GeneID", [py "12930923"])] Record_init in
  let line := py "                987984" ++ LF in
  exists front key values,
    dblinks r = front ++ [(key, values)]
    /\ process_line (Some kw_DBLINKS) r line =
       Updated kw_DBLINKS
         (set_dblinks
            (front ++ [(key, values ++ PyStr.split_ws (data_of line))]) r).
Proof.
  cbv zeta.
  apply (dblinks_line_with_pair
           (Some kw_DBLINKS)
           (set_dblinks [(py "NCBI-GeneID", [py "12930923"])] Record_init)
           (py "                987984" ++ LF) eq_refl eq_refl).
  - discriminate.
  - reflexivity.
Defined.

(** C4 as stated fails: with a pair already present, a DBLINKS line whose
    data holds a colon (here two [": "] separators) is not cut at the first
    separator and appended; it raises. *)
Lemma dblinks_colon_line_counterexample :
  let l1 := py "DBLINKS     NCBI-GeneID: 12930923" ++ LF in
  let l2 := py "            PDB: 1EV0: A" ++ LF in
  let r1 := set_dblinks [(py "NCBI-GeneID", [py "12930923"])] Record_init in
  process_line None Record_init l1 = Updated kw_DBLINKS r1
  /\ PyStr.contains (py ":") (data_of l2) = true
  /\ PyStr.find (py ": ") (data_of l2) = Some 3
  /\ process_line (Some kw_DBLINKS) r1 l2 = Failed ValueError
  /\ parse [l1; l2; py "///" ++ LF] = ([], Some ValueError)
  /\ ~ (exists r2, process_line (Some kw_DBLINKS) r1 l2
                   = Updated kw_DBLINKS r2).
Proof.
  cbv zeta. repeat split.
  intros (r2 & H).
  change (Failed ValueError = Updated kw_DBLINKS r2) in H. discriminate H.
Qed.

(** ** C5 *)

(** C5: when [parse] runs to the end of the input without raising, it has
    yielded one record per line that starts with ["///"].  A terminator
    line that comes right after another one yields a record with every
    field at its initial value, and what follows the ["///"] on a
    terminator line has no effect: the same records come out with the bare
    token in its place. *)
Theorem parse_yields_one_record_per_terminator
    (handle : list str) (ys : list GeneRecord) :
  parse handle = (ys, None) ->
  List.length ys = count_terminators handle
  /\ (forall pre t1 t2 post,
        handle = pre ++ t1 :: t2 :: post ->
        is_terminator t1 = true -> is_terminator t2 = true ->
        nth_error ys (S (count_terminators pre)) = Some Record_init)
  /\ (forall pre t post,
        handle = pre ++ t :: post ->
        is_terminator t = true ->
        parse (pre ++ terminator :: post) = (ys, None)).
Proof.
  intros P. repeat split.
  - unfold parse in P. rewrite <- (app_nil_r handle) in P.
    destruct (parse_from_app _ _ _ _ _ P) as (kw' & r' & ys1 & ys2 & E & L & Q).
    injection Q as <-. subst ys. now rewrite app_nil_r.
  - intros pre t1 t2 post -> T1 T2. unfold parse in P.
    destruct (parse_from_app _ _ _ _ _ P) as (kw' & r' & ys1 & ys2 & E & L & Q).
    rewrite (parse_from_terminator _ _ _ _ T1) in Q. cbn [fst snd] in Q.
    rewrite (parse_from_terminator _ _ _ _ T2) in Q. cbn [fst snd] in Q.
    injection Q as <- _. subst ys. rewrite <- L.
    rewrite nth_error_app2 by lia.
    replace (S (List.length ys1) - List.length ys1) with 1 by lia.
    reflexivity.
  - intros pre t post -> T. unfold parse in *.
    now rewrite (parse_from_terminator_content pre post terminator t eq_refl T).
Qed.

Lemma parse_yields_one_record_per_terminator_witness :
  let handle := sample ++ [py "/// trailing text" ++ LF; py "///"] in
  List.length (yielded handle) = 3
  /\ nth_error (yielded handle) 2 = Some Record_init
  /\ parse (sample ++ [terminator; py "///"]) = parse handle.
Proof.
  cbv zeta.
  destruct (parse_yields_one_record_per_terminator
              (sample ++ [py "/// trailing text" ++ LF; py "///"])
              (yielded (sample ++ [py "/// trailing text" ++ LF; py "///"]))
              eq_refl) as (L & Z & C).
  split; [exact L|]. split.
  - exact (Z (sample) (py "/// trailing text" ++ LF) (py "///") []
             eq_refl eq_refl eq_refl).
  - exact (C (sample) (py "/// trailing text" ++ LF) [py "///"]
             eq_refl eq_refl).
Defined.

(** ** C6 *)

(** C6: lines that follow the last terminator line (or all the lines, when
    there is none) add nothing to what [parse] yields: the records are
    those of the input cut after its last terminator, and with no
    terminator at all nothing is yielded.  When no line raises, the
    iteration just ends there. *)
Theorem parse_drops_unterminated_record (pre tail : list str) :
  Forall (fun l => is_terminator l = false) tail ->
  yielded (pre ++ tail) = yielded pre
  /\ yielded tail = []
  /\ (raised (pre ++ tail) = None ->
      List.length (yielded (pre ++ tail)) = count_terminators pre).
Proof.
  intros T. unfold yielded, raised, parse. repeat split.
  - now apply parse_from_drop_tail.
  - now apply parse_from_no_terminator.
  - intros R. rewrite (parse_from_drop_tail pre tail T).
    destruct (parse_from None Record_init (pre ++ tail)) as [ys e] eqn:P.
    simpl in R. subst e.
    destruct (parse_from_app _ _ _ _ _ P) as (kw' & r' & ys1 & ys2 & E & L & Q).
    pose proof (parse_from_drop_tail pre tail T None Record_init) as D.
    rewrite P in D. simpl in D. rewrite <- D.
    pose proof (parse_from_no_terminator tail T kw' r') as N.
    rewrite Q in N. simpl in N. subst. now rewrite app_nil_r.
Qed.

Lemma parse_drops_unterminated_record_witness :
  let tail := [py "ENTRY       b1175             CDS       E.coli" ++ LF;
               py "NAME        minD" ++ LF] in
  yielded (sample ++ tail) = yielded sample
  /\ yielded tail = []
  /\ (raised (sample ++ tail) = None ->
      List.length (yielded (sample ++ tail)) = count_terminators sample).
Proof.
  cbv zeta.
  apply (parse_drops_unterminated_record
           sample
           [py "ENTRY       b1175             CDS       E.coli" ++ LF;
            py "NAME        minD" ++ LF]).
  repeat constructor.
Defined.

(** ** C7 *)

(** C7: the text of a record is the ENTRY block, then the NAME block, then
    the DBLINKS block, then ["///"], and nothing after it.  The DEFINITION
    renderer is not called, so the text does not depend on [definition],
    nor on [orthology], [organism], [position] or [motif]; the NAME and
    DBLINKS blocks are written whatever those fields hold. *)
Theorem Record_str_layout
    (_write_kegg : str -> list str -> str)
    (_wrap_kegg : str -> wrap_rule -> str) (self : GeneRecord) :
  Record_str _write_kegg _wrap_kegg self =
    _write_kegg (py "ENTRY") [entry self]
    ++ _write_kegg (py "NAME")
         (map (fun l => _wrap_kegg l name_wrap) (name self))
    ++ _write_kegg (py "DBLINKS")
         (map (fun l => _wrap_kegg l (id_wrap 9))
              (map (fun row : link_row =>
                      fst row ++ py ": " ++ PyStr.join (py " ") (snd row))
                   (dblinks self)))
    ++ py "///"
  /\ skipn (List.length (Record_str _write_kegg _wrap_kegg self) - 3)
           (Record_str _write_kegg _wrap_kegg self) = py "///"
  /\ (forall d o g p m,
        Record_str _write_kegg _wrap_kegg
          (set_definition d
             (set_orthology o (set_organism g (set_position p
                (set_motif m self)))))
        = Record_str _write_kegg _wrap_kegg self).
Proof.
  repeat split.
  - unfold Record_str, _entry, _name, _dblinks, terminator.
    now rewrite <- !app_assoc.
  - unfold Record_str.
    rewrite length_app.
    replace (List.length terminator) with 3 by reflexivity.
    rewrite Nat.add_sub, skipn_app, skipn_all, Nat.sub_diag.
    reflexivity.
Qed.

(** ** C8 *)



(** ** C9 *)

(** C9: when the first line of the input has twelve spaces as its first
    twelve characters, [keyword] is read before it was ever assigned: the
    iteration ends on that line with [UnboundLocalError], nothing
    yielded. *)
Theorem leading_blank_label_unbound (line : str) (rest : list str) :
  firstn 12 line = blank_label ->
  parse (line :: rest) = ([], Some UnboundLocalError).
Proof.
  intros B. unfold parse. cbn [parse_from]. unfold process_line.
  rewrite (blank_label_not_terminator _ B), (blank_label_keeps_keyword _ _ B).
  reflexivity.
Qed.

Lemma leading_blank_label_unbound_witness :
  parse ((py "            987984" ++ LF) :: sample)
  = ([], Some UnboundLocalError).
Proof.
  apply (leading_blank_label_unbound (py "            987984" ++ LF) sample).
  reflexivity.
Defined.

(** ** C10 *)

(** C10: a line of fewer than twelve characters that is not a terminator
    (the empty line and the newline-only line among them) differs from the
    twelve spaces, so all of it becomes the current keyword; no field
    matches it, so the record is left as it was, and so it is by every
    blank-label line that follows, which keeps that keyword. *)
Theorem short_line_sets_keyword
    (kw : option str) (r : GeneRecord) (line : str) (conts rest : list str) :
  List.length line < 12 ->
  is_terminator line = false ->
  Forall (fun c => firstn 12 c = blank_label) conts ->
  next_keyword kw line = Some line
  /\ ~ In line recognized
  /\ process_line kw r line = Updated line r
  /\ (forall c, In c conts -> process_line (Some line) r c = Updated line r)
  /\ parse_from kw r (line :: conts ++ rest) = parse_from (Some line) r rest.
Proof.
  intros L T C.
  assert (F : firstn 12 line = line) by (apply firstn_all2; lia).
  assert (K : next_keyword kw line = Some line).
  { rewrite <- F at 2. apply labelled_sets_keyword. rewrite F.
    intros ->. simpl in L. lia. }
  assert (U : ~ In line recognized).
  { intros H. apply recognized_length in H. lia. }
  assert (S0 : process_line kw r line = Updated line r).
  { now rewrite (process_line_field _ _ _ _ T K), handle_unrecognized. }
  assert (S1 : forall c, firstn 12 c = blank_label ->
                         process_line (Some line) r c = Updated line r).
  { intros c B.
    rewrite (process_line_field (Some line) r c line);
      [ now rewrite handle_unrecognized
      | now apply blank_label_not_terminator
      | now apply blank_label_keeps_keyword ]. }
  repeat split; try assumption.
  - intros c H. apply S1. rewrite Forall_forall in C. now apply C.
  - cbn [parse_from]. rewrite S0. clear S0.
    induction C as [|c conts B _ IH]; [reflexivity|].
    simpl app. cbn [parse_from]. now rewrite (S1 c B).
Qed.

Lemma short_line_sets_keyword_witness :
  parse_from (Some kw_NAME) (set_name [py "minE"] Record_init)
    (LF :: [py "            minD" ++ LF] ++ [py "///" ++ LF])
  = parse_from (Some LF) (set_name [py "minE"] Record_init) [py "///" ++ LF].
Proof.
  apply (short_line_sets_keyword
           (Some kw_NAME) (set_name [py "minE"] Record_init) LF
           [py "            minD" ++ LF] [py "///" ++ LF]).
  - simpl. lia.
  - reflexivity.
  - repeat constructor.
Defined.

(** * Further properties of the module *)

(** ** Facts on trimming and on whitespace-separated words *)

Module WordFacts.
Import PyStr.



(** What [strip] returns neither starts nor ends with a stripped
    character. *)
Lemma strip_by_trimmed (p : ascii -> bool) (s : str) :
  trimmed p (rstrip_by p (lstrip_by p s)).
Proof.
  unfold lstrip_by.
  destruct (StripFacts.dropwhile_spec p s) as (pre & _ & _ & N).
  destruct (StripFacts.rstrip_by_spec p (dropwhile p s)) as (post & E & _ & L).
  split; [|exact L].
  intros c t H. rewrite H in E. simpl in E. eauto.
Qed.


Lemma data_of_trimmed (line : str) : trimmed isspace (data_of line).
Proof. apply strip_by_trimmed. Qed.


Lemma no_space_rev (a : str) : no_space (rev a) = no_space a.
Proof. apply StripFacts.forallb_rev. Qed.

Lemma is_token_spec (t : str) :
  is_token t = true <-> t <> [] /\ no_space t = true.
Proof.
  destruct t as [|c t]; simpl; split.
  - discriminate.
  - intros [H _]. now contradiction H.
  - intros H. split; [discriminate | exact H].
  - intros [_ H]. exact H.
Qed.

(** Every word [split()] returns is a token. *)
Lemma split_ws_from_tokens (s cur : str) :
  no_space cur = true ->
  Forall (fun t => is_token t = true) (split_ws_from cur s).
Proof.
  revert cur. induction s as [|c s IH]; intros cur C.
  - simpl. destruct cur as [|d cur]; constructor; [|constructor].
    apply is_token_spec. split.
    + intros E. apply (f_equal (@List.length ascii)) in E.
      rewrite length_rev in E. discriminate.
    + now rewrite no_space_rev.
  - simpl. destruct (isspace c) eqn:W.
    + destruct cur as [|d cur]; [now apply IH|].
      constructor; [|now apply IH].
      apply is_token_spec. split.
      * intros E. apply (f_equal (@List.length ascii)) in E.
        rewrite length_rev in E. discriminate.
      * now rewrite no_space_rev.
    + apply IH. simpl. now rewrite W.
Qed.

Lemma split_ws_tokens (s : str) :
  Forall (fun t => is_token t = true) (split_ws s).
Proof. now apply split_ws_from_tokens. Qed.

(** The first word is the text up to the first whitespace character. *)
Lemma split_ws_from_first (s cur : str) :
  cur <> [] \/ (exists c t, s = c :: t /\ isspace c = false) ->
  exists tok rest more,
    split_ws_from cur s = (rev cur ++ tok) :: more
    /\ s = tok ++ rest /\ no_space tok = true /\ at_space rest.
Proof.
  revert cur. induction s as [|c s IH]; intros cur H.
  - destruct H as [H|(c & t & E & _)]; [|discriminate].
    exists [], [], []. simpl. rewrite app_nil_r.
    destruct cur; [congruence|]. repeat split.
  - simpl. destruct (isspace c) eqn:W.
    + assert (N : cur <> []).
      { destruct H as [H|(c' & t & [= <- _] & E)]; [exact H | congruence]. }
      exists [], (c :: s). destruct cur as [|d cur]; [congruence|].
      exists (split_ws_from [] s). rewrite app_nil_r. repeat split. exact W.
    + destruct (IH (c :: cur)) as (tok & rest & more & E & S & T & R).
      { left. discriminate. }
      exists (c :: tok), rest, more. rewrite E. simpl.
      rewrite <- app_assoc. simpl. rewrite W, T, S. repeat split. exact R.
Qed.






End WordFacts.

(** ** The state of the loop along the input *)

Lemma process_line_yield_inv (kw : option str) (r r1 : GeneRecord) (line : str) :
  process_line kw r line = Yielded r1 -> is_terminator line = true /\ r1 = r.
Proof.
  unfold process_line. destruct (is_terminator line).
  - intros [= <-]. now split.
  - destruct (next_keyword kw line); [|discriminate].
    destruct (handle_field _ _ _); discriminate.
Qed.

Lemma process_line_update_inv (kw : option str) (r r1 : GeneRecord)
    (line k : str) :
  process_line kw r line = Updated k r1 ->
  is_terminator line = false
  /\ next_keyword kw line = Some k
  /\ handle_field k (data_of line) r = Ok r1.
Proof.
  unfold process_line. destruct (is_terminator line); [discriminate|].
  destruct (next_keyword kw line) as [k'|]; [|discriminate].
  destruct (handle_field k' (data_of line) r) eqn:H; [|discriminate].
  intros [= <- <-]. now repeat split.
Qed.

Lemma process_line_fail_inv (kw : option str) (r : GeneRecord) (line : str)
    (e : exn) :
  process_line kw r line = Failed e -> is_terminator line = false.
Proof.
  unfold process_line. now destruct (is_terminator line).
Qed.

Lemma raised_final_state (handle : list str) :
  forall kw r,
    snd (parse_from kw r handle) =
    match final_state kw r handle with
    | Ok _ => None
    | Raise e => Some e
    end.
Proof.
  induction handle as [|l h IH]; intros kw r; [reflexivity|].
  simpl. destruct (process_line kw r l) as [r1|k r1|e].
  - rewrite <- IH. now destruct (parse_from kw Record_init h).
  - apply IH.
  - reflexivity.
Qed.

Lemma final_state_app (pre rest : list str) :
  forall kw r,
    final_state kw r (pre ++ rest) =
    (st <- final_state kw r pre ;; final_state (fst st) (snd st) rest).
Proof.
  induction pre as [|l pre IH]; intros kw r; [reflexivity|].
  simpl. destruct (process_line kw r l); auto.
Qed.

(** A run that does not raise on [pre] goes on over [rest] from the state
    reached, and what it yielded on [pre] stays. *)
Lemma parse_from_split (pre rest : list str) :
  forall kw r kw' r',
    final_state kw r pre = Ok (kw', r') ->
    parse_from kw r (pre ++ rest) =
    (fst (parse_from kw r pre) ++ fst (parse_from kw' r' rest),
     snd (parse_from kw' r' rest)).
Proof.
  induction pre as [|l pre IH]; intros kw r kw' r' F.
  - injection F as <- <-. simpl. now destruct (parse_from kw r rest).
  - simpl in F |- *. destruct (process_line kw r l) as [r1|k r1|e].
    + rewrite (IH _ _ _ _ F).
      now destruct (parse_from kw Record_init pre).
    + now apply IH.
    + discriminate.
Qed.

(** A run that raises on [pre] never reads what follows. *)
Lemma parse_from_abort (pre rest : list str) :
  forall kw r e,
    final_state kw r pre = Raise e ->
    parse_from kw r (pre ++ rest) = parse_from kw r pre.
Proof.
  induction pre as [|l pre IH]; intros kw r e F; [discriminate|].
  simpl in F |- *. destruct (process_line kw r l) as [r1|k r1|e'].
  - now rewrite (IH _ _ _ F).
  - now apply (IH _ _ e).
  - reflexivity.
Qed.

Lemma final_state_keyword (handle : list str) :
  forall kw r kw' r',
    final_state kw r handle = Ok (kw', r') -> kw' = last_label kw handle.
Proof.
  induction handle as [|l h IH]; intros kw r kw' r' F.
  - now injection F as <- _.
  - simpl in F |- *. destruct (process_line kw r l) as [r1|k r1|e] eqn:S.
    + apply process_line_yield_inv in S. destruct S as [T _].
      rewrite T. now apply (IH _ _ _ _ F).
    + apply process_line_update_inv in S. destruct S as (T & K & _).
      rewrite T, K. now apply (IH _ _ _ _ F).
    + discriminate.
Qed.

Lemma last_label_app (a b : list str) (kw : option str) :
  last_label kw (a ++ b) = last_label (last_label kw a) b.
Proof.
  revert kw. induction a as [|l a IH]; intros kw; [reflexivity|].
  simpl. apply IH.
Qed.

(** Where no blank-label line comes before a label, the keyword the loop
    starts with is never read. *)
Lemma parse_from_keyword_unread (handle : list str) :
  forall kw r,
    snd (parse_from None r handle) <> Some UnboundLocalError ->
    parse_from kw r handle = parse_from None r handle.
Proof.
  induction handle as [|l h IH]; intros kw r U; [reflexivity|].
  simpl in U |- *. unfold process_line in *.
  destruct (is_terminator l).
  - rewrite (IH kw Record_init); [reflexivity|].
    now destruct (parse_from None Record_init h).
  - unfold next_keyword in *.
    destruct (negb (str_eqb (firstn 12 l) blank_label)).
    + now destruct (handle_field (firstn 12 l) (data_of l) r).
    + now contradiction U.
Qed.

(** ** The generator along the input *)

(** What [parse] has yielded by the end of [pre] is not touched by what
    follows: it is the start of what the longer input yields.  Once a line
    has raised, the lines after it are not read at all. *)
Theorem parse_prefix_stable (pre rest : list str) :
  (exists more, yielded (pre ++ rest) = yielded pre ++ more)
  /\ (forall e, raised pre = Some e -> parse (pre ++ rest) = parse pre).
Proof.
  unfold yielded, raised, parse.
  pose proof (raised_final_state pre None Record_init) as R.
  destruct (final_state None Record_init pre) as [[kw' r']|e'] eqn:F.
  - split.
    + rewrite (parse_from_split pre rest _ _ _ _ F). simpl. eauto.
    + intros e H. congruence.
  - rewrite (parse_from_abort pre rest _ _ _ F). split.
    + exists []. now rewrite app_nil_r.
    + reflexivity.
Qed.

Lemma parse_prefix_stable_witness :
  parse ([py "NAME        minE" ++ LF; py "///" ++ LF;
          py "ORTHOLOGY   K00001 no separator" ++ LF] ++ sample)
  = ([set_name [py "minE"] Record_init], Some ValueError).
Proof.
  exact (proj2 (parse_prefix_stable
                  [py "NAME        minE" ++ LF; py "///" ++ LF;
                   py "ORTHOLOGY   K00001 no separator" ++ LF] sample)
               ValueError eq_refl).
Defined.

(** When [parse] raises, it does so on one line that is not a terminator;
    up to that line it ran as on the input cut there, and it has yielded
    one record per terminator line before it. *)
Theorem parse_raises_at_line (handle : list str) (e : exn) :
  raised handle = Some e ->
  exists pre line post,
    handle = pre ++ line :: post
    /\ is_terminator line = false
    /\ parse pre = (yielded handle, None)
    /\ parse (pre ++ [line]) = (yielded handle, Some e)
    /\ List.length (yielded handle) = count_terminators pre.
Proof.
  unfold raised, yielded, parse. generalize (@None str), Record_init.
  induction handle as [|l h IH]; intros kw r R; [discriminate|].
  simpl in R. destruct (process_line kw r l) as [r1|k r1|e'] eqn:S.
  - destruct (process_line_yield_inv _ _ _ _ S) as [T ->].
    destruct (parse_from kw Record_init h) as [ys e0] eqn:P.
    simpl in R. subst e0.
    destruct (IH kw Record_init) as (pre & line & post & E & T' & A & B & C).
    { now rewrite P. }
    rewrite P in A, B, C. simpl in A, B, C.
    exists (l :: pre), line, post. subst h.
    rewrite count_terminators_cons, T. simpl. rewrite S, A, B, P.
    simpl. repeat split; auto.
  - destruct (process_line_update_inv _ _ _ _ _ S) as (T & _).
    destruct (IH (Some k) r1 R) as (pre & line & post & E & T' & A & B & C).
    exists (l :: pre), line, post. subst h.
    rewrite count_terminators_cons, T. simpl. rewrite S.
    repeat split; auto.
  - simpl in R. injection R as ->.
    exists [], l, h. simpl. rewrite S.
    repeat split. now apply (process_line_fail_inv _ _ _ _ S).
Qed.

Lemma parse_raises_at_line_witness :
  let handle := sample ++ [py "MOTIF       Pfam MinE" ++ LF; py "///" ++ LF] in
  exists pre line post,
    handle = pre ++ line :: post
    /\ is_terminator line = false
    /\ parse pre = (yielded handle, None)
    /\ parse (pre ++ [line]) = (yielded handle, Some ValueError)
    /\ List.length (yielded handle) = count_terminators pre.
Proof.
  cbv zeta.
  apply (parse_raises_at_line
           (sample ++ [py "MOTIF       Pfam MinE" ++ LF; py "///" ++ LF])
           ValueError).
  reflexivity.
Defined.

(** The current keyword is not reset by a terminator line: after a part of
    the input that did not raise, the loop goes on with the label of the
    last labelled line read, through any terminator lines after it. *)
Theorem keyword_survives_terminators (pre rest : list str) :
  raised pre = None ->
  (forall t, is_terminator t = true ->
             last_label None (pre ++ [t]) = last_label None pre)
  /\ exists r',
       final_state None Record_init pre = Ok (last_label None pre, r')
       /\ parse (pre ++ rest) =
          (yielded pre ++ fst (parse_from (last_label None pre) r' rest),
           snd (parse_from (last_label None pre) r' rest)).
Proof.
  unfold raised, yielded, parse. intros R. split.
  - intros t T. rewrite last_label_app. simpl. now rewrite T.
  - rewrite raised_final_state in R.
    destruct (final_state None Record_init pre) as [[kw' r']|e] eqn:F;
      [|discriminate].
    pose proof (final_state_keyword _ _ _ _ _ F) as ->.
    exists r'. split; [reflexivity|].
    now apply parse_from_split.
Qed.

Lemma keyword_survives_terminators_witness :
  parse ([py "NAME        minE" ++ LF; py "///" ++ LF]
         ++ [py "            minD" ++ LF; py "///" ++ LF])
  = ([set_name [py "minE"] Record_init; set_name [py "minD"] Record_init],
     None).
Proof.
  destruct (keyword_survives_terminators
              [py "NAME        minE" ++ LF; py "///" ++ LF]
              [py "            minD" ++ LF; py "///" ++ LF] eq_refl)
    as (_ & r' & F & P).
  injection F as <-. exact P.
Defined.

(** Two inputs one after the other: when the first ends on a terminator
    line and did not raise, and the second is one [parse] does not reject
    for a blank label before any label, the records are those of the first
    and then those of the second, and the outcome is that of the second. *)
Theorem parse_concat (a b : list str) (t : str) :
  is_terminator t = true ->
  raised (a ++ [t]) = None ->
  raised b <> Some UnboundLocalError ->
  parse ((a ++ [t]) ++ b) = (yielded (a ++ [t]) ++ yielded b, raised b).
Proof.
  unfold raised, yielded, parse. intros T R U.
  rewrite raised_final_state in R.
  destruct (final_state None Record_init (a ++ [t])) as [[kw' r']|e] eqn:F;
    [|discriminate].
  rewrite (parse_from_split (a ++ [t]) b _ _ _ _ F).
  assert (r' = Record_init) as ->.
  { rewrite final_state_app in F.
    destruct (final_state None Record_init a) as [[k1 r1]|e]; [|discriminate].
    simpl in F. rewrite (process_line_terminator _ _ _ T) in F.
    now injection F as _ <-. }
  now rewrite (parse_from_keyword_unread b kw' Record_init U).
Qed.

Lemma parse_concat_witness :
  parse ((firstn 4 sample ++ [py "///" ++ LF]) ++ sample)
  = (yielded sample ++ yielded sample, None).
Proof.
  apply (parse_concat (firstn 4 sample) sample (py "///" ++ LF)).
  - reflexivity.
  - reflexivity.
  - discriminate.
Defined.

(** ** The branches of the loop body *)

Lemma unpack2_inv (parts : list str) (a b : str) :
  unpack2 parts = Ok (a, b) -> parts = [a; b].
Proof.
  destruct parts as [|x [|y [|z t]]]; simpl; try discriminate.
  now intros [= <- <-].
Qed.

Lemma get_last_inv {A : Type} (l : list A) (x : A) :
  get_last l = Ok x -> exists front, l = front ++ [x].
Proof.
  unfold get_last. destruct (rev l) as [|y t] eqn:R; [discriminate|].
  intros [= <-]. exists (rev t).
  rewrite <- (rev_involutive l), R. reflexivity.
Qed.

Lemma set_last_app {A : Type} (front : list A) (x y : A) :
  set_last (front ++ [x]) y = Ok (front ++ [y]).
Proof.
  unfold set_last. rewrite removelast_last. now destruct front.
Qed.

(** Every run of the chain that does not raise is one of its branches. *)
Lemma handle_field_update (k d : str) (r r' : GeneRecord) :
  handle_field k d r = Ok r' -> field_update k d r r'.
Proof.
  unfold handle_field.
  destruct (str_eqb k kw_ENTRY) eqn:E1.
  { apply str_eqb_eq in E1. subst k.
    destruct (PyStr.split_ws d) as [|w more] eqn:W; simpl; [discriminate|].
    intros [= <-]. now apply upd_ENTRY with more. }
  destruct (str_eqb k kw_NAME) eqn:E2.
  { apply str_eqb_eq in E2. subst k. intros [= <-]. constructor. }
  destruct (str_eqb k kw_DEFINITION) eqn:E3.
  { apply str_eqb_eq in E3. subst k. intros [= <-]. constructor. }
  destruct (str_eqb k kw_ORTHOLOGY) eqn:E4.
  { apply str_eqb_eq in E4. subst k.
    destruct (unpack2 (PyStr.split (py "  ") d)) as [[a b]|e] eqn:U;
      simpl; [|discriminate].
    intros [= <-]. constructor. now apply unpack2_inv. }
  destruct (str_eqb k kw_ORGANISM) eqn:E5.
  { apply str_eqb_eq in E5. subst k.
    destruct (unpack2 (PyStr.split (py "  ") d)) as [[a b]|e] eqn:U;
      simpl; [|discriminate].
    intros [= <-]. constructor. now apply unpack2_inv. }
  destruct (str_eqb k kw_POSITION) eqn:E6.
  { apply str_eqb_eq in E6. subst k. intros [= <-]. constructor. }
  destruct (str_eqb k kw_MOTIF) eqn:E7.
  { apply str_eqb_eq in E7. subst k.
    destruct (unpack2 (PyStr.split (py ": ") d)) as [[a b]|e] eqn:U;
      simpl; [|discriminate].
    intros [= <-]. constructor. now apply unpack2_inv. }
  destruct (str_eqb k kw_DBLINKS) eqn:E8.
  { apply str_eqb_eq in E8. subst k.
    destruct (PyStr.contains (py ":") d) eqn:C.
    - destruct (unpack2 (PyStr.split (py ": ") d)) as [[a b]|e] eqn:U;
        simpl; [|discriminate].
      intros [= <-]. constructor; [exact C | now apply unpack2_inv].
    - destruct (get_last (dblinks r)) as [[key values]|e] eqn:G;
        simpl; [|discriminate].
      destruct (get_last_inv _ _ G) as (front & D).
      rewrite D, set_last_app. simpl. intros [= <-].
      now constructor. }
  intros [= <-]. constructor.
  apply str_eqb_neq in E1, E2, E3, E4, E5, E6, E7, E8.
  unfold recognized. simpl. intuition congruence.
Qed.

Lemma process_line_update (kw : option str) (r r' : GeneRecord) (line k : str) :
  process_line kw r line = Updated k r' ->
  field_update k (data_of line) r r'.
Proof.
  intros S. apply process_line_update_inv in S.
  destruct S as (_ & _ & H). now apply handle_field_update.
Qed.

(** A line changes no field but the one its keyword names. *)
Theorem line_touches_own_field
    (kw : option str) (r r' : GeneRecord) (line k : str) :
  process_line kw r line = Updated k r' ->
  (k <> kw_ENTRY -> entry r' = entry r)
  /\ (k <> kw_NAME -> name r' = name r)
  /\ (k <> kw_DEFINITION -> definition r' = definition r)
  /\ (k <> kw_ORTHOLOGY -> orthology r' = orthology r)
  /\ (k <> kw_ORGANISM -> organism r' = organism r)
  /\ (k <> kw_POSITION -> position r' = position r)
  /\ (k <> kw_MOTIF -> motif r' = motif r)
  /\ (k <> kw_DBLINKS -> dblinks r' = dblinks r).
Proof.
  intros S. apply process_line_update in S.
  destruct S; repeat split; intros N; try reflexivity; now contradiction N.
Qed.

Lemma line_touches_own_field_witness :
  let r := set_entry (py "b1174") Record_init in
  entry (set_name [py "minE"] r) = entry r
  /\ dblinks (set_name [py "minE"] r) = dblinks r.
Proof.
  cbv zeta.
  destruct (line_touches_own_field
              None (set_entry (py "b1174") Record_init)
              (set_name [py "minE"] (set_entry (py "b1174") Record_init))
              (py "NAME        minE;" ++ LF) kw_NAME eq_refl)
    as (E & _ & _ & _ & _ & _ & _ & D).
  split; [apply E | apply D]; discriminate.
Defined.




(** ** ENTRY *)



(** ** DEFINITION and POSITION *)


Section LastLineWins.
Variable k : str.
Variable set : str -> GeneRecord -> GeneRecord.
Hypothesis handle_k : forall d r, handle_field k d r = Ok (set d r).
Hypothesis set_set : forall d d' r, set d' (set d r) = set d' r.


End LastLineWins.





(** ** ORGANISM *)



(** ** MOTIF *)

Lemma startswith_first (a : ascii) (p s : str) :
  PyStr.startswith (a :: p) s = true -> PyStr.startswith [a] s = true.
Proof.
  destruct s as [|b s]; [discriminate|]. simpl.
  intros H. apply andb_prop in H. destruct H as [-> _]. reflexivity.
Qed.

Lemma contains_first (a : ascii) (p s : str) :
  PyStr.contains [a] s = false -> PyStr.contains (a :: p) s = false.
Proof.
  induction s as [|b s IH].
  - reflexivity.
  - cbn [PyStr.contains]. intros H. apply orb_false_elim in H.
    destruct H as [H1 H2]. rewrite (IH H2), orb_false_r.
    destruct (PyStr.startswith (a :: p) (b :: s)) eqn:E; [|reflexivity].
    apply startswith_first in E. congruence.
Qed.

Lemma no_colon_no_separator (data : str) :
  PyStr.contains (py ":") data = false -> PyStr.count (py ": ") data = 0.
Proof.
  intros H. apply (PyStrFacts.contains_count _ colon_space_nonempty).
  now apply (contains_first ":" (py " ")).
Qed.

(** A MOTIF line raises [ValueError] if and only if its data does not hold
    exactly one [": "] separator.  MOTIF has no continuation: a line under
    that keyword whose data has no colon raises, where a DBLINKS line
    would extend the last pair. *)
Theorem motif_line_raises (kw : option str) (r : GeneRecord) (line : str) :
  is_terminator line = false ->
  next_keyword kw line = Some kw_MOTIF ->
  (process_line kw r line = Failed ValueError
     <-> PyStr.count (py ": ") (data_of line) <> 1)
  /\ (PyStr.contains (py ":") (data_of line) = false ->
      process_line kw r line = Failed ValueError).
Proof.
  intros T K. rewrite (process_line_field _ _ _ _ T K), handle_MOTIF.
  assert (R : PyStr.count (py ": ") (data_of line) <> 1 ->
              unpack2 (PyStr.split (py ": ") (data_of line))
              = Raise ValueError) by apply split_colon_raise.
  split.
  - split.
    + intros F H. destruct (split_colon_row _ H) as (i & _ & E).
      rewrite E in F. discriminate.
    + intros H. now rewrite (R H).
  - intros C. rewrite R; [reflexivity|].
    rewrite (no_colon_no_separator _ C). discriminate.
Qed.

Lemma motif_line_raises_witness :
  parse [py "MOTIF       Pfam: MinE" ++ LF; py "            Cupin_2" ++ LF;
         py "///" ++ LF]
  = ([], Some ValueError).
Proof.
  assert (S : process_line (Some kw_MOTIF)
                (set_motif [(py "Pfam", [py "MinE"])] Record_init)
                (py "            Cupin_2" ++ LF) = Failed ValueError).
  { apply (motif_line_raises
             (Some kw_MOTIF)
             (set_motif [(py "Pfam", [py "MinE"])] Record_init)
             (py "            Cupin_2" ++ LF) eq_refl eq_refl).
    reflexivity. }
  unfold parse. cbn [parse_from].
  change (process_line None Record_init (py "MOTIF       Pfam: MinE" ++ LF))
    with (Updated kw_MOTIF (set_motif [(py "Pfam", [py "MinE"])] Record_init)).
  cbv iota beta. now rewrite S.
Defined.

(** ** Labels that are not fields of the record *)



(** ** DBLINKS blocks *)

Lemma dblinks_continuations (more rest : list str) :
  Forall (fun l => is_terminator l = false
                   /\ next_keyword (Some kw_DBLINKS) l = Some kw_DBLINKS
                   /\ PyStr.contains (py ":") (data_of l) = false) more ->
  forall r front key values,
    dblinks r = front ++ [(key, values)] ->
    parse_from (Some kw_DBLINKS) r (more ++ rest) =
    parse_from (Some kw_DBLINKS)
      (set_dblinks
         (front ++
          [(key, values ++
                 List.concat (map (fun l => PyStr.split_ws (data_of l)) more))])
         r) rest.
Proof.
  induction 1 as [|l more (T & K & C) _ IH]; intros r front key values D.
  - simpl. rewrite app_nil_r, <- D. now destruct r.
  - simpl app. cbn [parse_from].
    rewrite (process_line_field _ _ _ _ T K), handle_DBLINKS, C.
    unfold get_last. rewrite D, rev_app_distr. simpl.
    rewrite <- D at 1. rewrite D, set_last_app. simpl.
    rewrite (IH _ front key (values ++ PyStr.split_ws (data_of l)));
      [|reflexivity].
    simpl. now rewrite <- app_assoc.
Qed.

(** A DBLINKS line with exactly one [": "] separator followed by DBLINKS
    lines without a colon gives one pair: the key of the first line, and
    the words of all the lines in order as its ids. *)
Theorem dblinks_block_collects
    (kw : option str) (r : GeneRecord) (line : str) (more rest : list str) :
  is_terminator line = false ->
  next_keyword kw line = Some kw_DBLINKS ->
  PyStr.count (py ": ") (data_of line) = 1 ->
  Forall (fun l => is_terminator l = false
                   /\ next_keyword (Some kw_DBLINKS) l = Some kw_DBLINKS
                   /\ PyStr.contains (py ":") (data_of l) = false) more ->
  exists i,
    PyStr.find (py ": ") (data_of line) = Some i
    /\ parse_from kw r (line :: more ++ rest) =
       parse_from (Some kw_DBLINKS)
         (set_dblinks
            (dblinks r ++
             [(firstn i (data_of line),
               PyStr.split_ws (skipn (i + 2) (data_of line))
               ++ List.concat (map (fun l => PyStr.split_ws (data_of l)) more))])
            r) rest.
Proof.
  intros T K H M.
  destruct (split_colon_row _ H) as (i & F & E).
  exists i. split; [exact F|].
  assert (C : PyStr.contains (py ":") (data_of line) = true).
  { destruct (PyStr.contains (py ":") (data_of line)) eqn:C; [reflexivity|].
    rewrite (no_colon_no_separator _ C) in H. discriminate. }
  cbn [parse_from].
  rewrite (process_line_field _ _ _ _ T K), handle_DBLINKS, C, E. simpl.
  exact (dblinks_continuations
                 more rest M
                 (set_dblinks
                    (dblinks r ++
                     [(firstn i (data_of line),
                       PyStr.split_ws (skipn (i + 2) (data_of line)))]) r)
                 (dblinks r) _ _ eq_refl).
Qed.

Lemma dblinks_block_collects_witness :
  parse_from None Record_init
    ((py "DBLINKS     NCBI-GeneID: 12930923" ++ LF)
     :: [py "                987984" ++ LF; py "            945741 1  " ++ LF]
     ++ [py "///" ++ LF])
  = parse_from (Some kw_DBLINKS)
      (set_dblinks
         [(py "NCBI-GeneID",
           [py "12930923"; py "987984"; py "945741"; py "1"])] Record_init)
      [py "///" ++ LF].
Proof.
  destruct (dblinks_block_collects
              None Record_init
              (py "DBLINKS     NCBI-GeneID: 12930923" ++ LF)
              [py "                987984" ++ LF;
               py "            945741 1  " ++ LF]
              [py "///" ++ LF] eq_refl eq_refl eq_refl)
    as (i & F & P).
  - repeat constructor.
  - injection F as <-. exact P.
Defined.

(** ** The text of a DBLINKS row, read back *)









(** ** What a record keeps while it is built *)

Lemma row_extends_refl (row : link_row) : row_extends row row.
Proof. split; [reflexivity|]. exists []. now rewrite app_nil_r. Qed.

Lemma row_extends_trans (a b c : link_row) :
  row_extends a b -> row_extends b c -> row_extends a c.
Proof.
  intros [K1 (m1 & E1)] [K2 (m2 & E2)]. split; [congruence|].
  exists (m1 ++ m2). now rewrite E2, E1, app_assoc.
Qed.

Lemma rows_extend_refl (l : list link_row) : Forall2 row_extends l l.
Proof. induction l; constructor; auto using row_extends_refl. Qed.

Lemma rows_extend_trans (a b c : list link_row) :
  Forall2 row_extends a b -> Forall2 row_extends b c ->
  Forall2 row_extends a c.
Proof.
  intros H. revert c. induction H as [|x y a b R _ IH]; intros c H'.
  - inversion H'. constructor.
  - inversion H' as [|y' z b' c' R' T]; subst.
    constructor; [eapply row_extends_trans; eauto | now apply IH].
Qed.

Lemma grows_refl (r : GeneRecord) : grows r r.
Proof.
  repeat split; try (exists []; now rewrite app_nil_r).
  exists (dblinks r), []. split; [now rewrite app_nil_r|].
  apply rows_extend_refl.
Qed.

Lemma grows_trans (a b c : GeneRecord) : grows a b -> grows b c -> grows a c.
Proof.
  intros ((n1 & N1) & (o1 & O1) & (m1 & M1) & (k1 & d1 & D1 & F1))
         ((n2 & N2) & (o2 & O2) & (m2 & M2) & (k2 & d2 & D2 & F2)).
  repeat split.
  - exists (n1 ++ n2). now rewrite N2, N1, app_assoc.
  - exists (o1 ++ o2). now rewrite O2, O1, app_assoc.
  - exists (m1 ++ m2). now rewrite M2, M1, app_assoc.
  - rewrite D1 in F2. apply Forall2_app_inv_l in F2.
    destruct F2 as (ka & kb & Fa & Fb & ->).
    exists ka, (kb ++ d2). split; [now rewrite D2, app_assoc|].
    eapply rows_extend_trans; eauto.
Qed.

Lemma field_update_grows (k d : str) (r r' : GeneRecord) :
  field_update k d r r' -> grows r r'.
Proof.
  intros U. destruct U; try apply grows_refl;
    repeat split; simpl;
    try (exists []; now rewrite app_nil_r);
    try (eexists; reflexivity).
  - exists (dblinks r), []. split; [now rewrite app_nil_r|].
    apply rows_extend_refl.
  - exists (dblinks r), []. split; [now rewrite app_nil_r|].
    apply rows_extend_refl.
  - exists (dblinks r), []. split; [now rewrite app_nil_r|].
    apply rows_extend_refl.
  - exists (dblinks r), []. split; [now rewrite app_nil_r|].
    apply rows_extend_refl.
  - exists (dblinks r), []. split; [now rewrite app_nil_r|].
    apply rows_extend_refl.
  - exists (dblinks r), []. split; [now rewrite app_nil_r|].
    apply rows_extend_refl.
  - exists (dblinks r), []. split; [now rewrite app_nil_r|].
    apply rows_extend_refl.
  - exists (dblinks r), [(a, PyStr.split_ws b)]. split; [reflexivity|].
    apply rows_extend_refl.
  - exists (front ++ [(key, values ++ PyStr.split_ws d)]), [].
    split; [now rewrite app_nil_r|].
    match goal with H : dblinks r = _ |- _ => rewrite H end.
    apply Forall2_app; [apply rows_extend_refl|].
    constructor; [|constructor]. split; [reflexivity|]. simpl. eauto.
Qed.

(** Between two terminator lines nothing a line has stored in a list field
    is removed or reordered by a later line: [name], [orthology] and
    [motif] only get entries after those they have, and each pair of
    [dblinks] keeps its place and its database and only gets ids after
    those it has. *)
Theorem record_only_grows
    (handle : list str) (kw kw' : option str) (r r' : GeneRecord) :
  Forall (fun l => is_terminator l = false) handle ->
  final_state kw r handle = Ok (kw', r') ->
  grows r r'.
Proof.
  intros T. revert kw r. induction T as [|l h Tl _ IH]; intros kw r F.
  - injection F as _ <-. apply grows_refl.
  - simpl in F. destruct (process_line kw r l) as [r1|k r1|e] eqn:S.
    + now apply process_line_not_yield in S.
    + apply grows_trans with r1; [|now apply (IH _ _ F)].
      apply process_line_update in S. now apply field_update_grows in S.
    + discriminate.
Qed.

Lemma record_only_grows_witness :
  grows (set_name [py "minE"] Record_init)
        (set_dblinks [(py "NCBI-GeneID", [py "12930923"; py "987984"])]
           (set_name [py "minE"; py "minD"] Record_init)).
Proof.
  apply (record_only_grows
           [py "NAME        minD" ++ LF;
            py "DBLINKS     NCBI-GeneID: 12930923" ++ LF;
            py "                987984" ++ LF]
           None (Some kw_DBLINKS)).
  - repeat constructor.
  - reflexivity.
Defined.

(** ** What the stored text looks like *)

Lemma trimmed_nil (p : ascii -> bool) : trimmed p [].
Proof.
  split; [discriminate|]. intros t c E. now destruct t.
Qed.

Lemma tokens_ok_init : tokens_ok Record_init.
Proof.
  unfold tokens_ok. simpl.
  repeat split; try constructor; try discriminate;
    intros t c E; now destruct t.
Qed.

Lemma field_update_tokens_ok (k d : str) (r r' : GeneRecord) :
  trimmed PyStr.isspace d ->
  field_update k d r r' -> tokens_ok r -> tokens_ok r'.
Proof.
  intros D U (E & N & Df & P & M & L).
  destruct U; unfold tokens_ok; simpl; repeat split;
    try assumption; try apply D; try apply Df; try apply P.
  - pose proof (WordFacts.split_ws_tokens d) as W.
    match goal with H : PyStr.split_ws d = _ |- _ => rewrite H in W end.
    apply Forall_inv in W. apply WordFacts.is_token_spec in W. apply W.
  - apply Forall_app. split; [exact N|]. constructor; [|constructor].
    apply WordFacts.strip_by_trimmed.
  - apply Forall_app. split; [exact M|]. constructor; [|constructor].
    apply WordFacts.split_ws_tokens.
  - apply Forall_app. split; [exact L|]. constructor; [|constructor].
    apply WordFacts.split_ws_tokens.
  - match goal with H : dblinks r = _ |- _ => rewrite H in L end.
    apply Forall_app in L. destruct L as [L1 L2].
    apply Forall_app. split; [exact L1|]. constructor; [|constructor].
    simpl. apply Forall_app. split.
    + now apply Forall_inv in L2.
    + apply WordFacts.split_ws_tokens.
Qed.

Lemma parse_from_tokens_ok (handle : list str) :
  forall kw r0 r,
    tokens_ok r0 -> In r (fst (parse_from kw r0 handle)) -> tokens_ok r.
Proof.
  induction handle as [|l h IH]; intros kw r0 r O I; [contradiction|].
  simpl in I. destruct (process_line kw r0 l) as [r1|k r1|e] eqn:S.
  - apply process_line_yield_inv in S. destruct S as [_ ->].
    destruct (parse_from kw Record_init h) as [ys e] eqn:P. simpl in I.
    destruct I as [<-|I]; [exact O|].
    apply (IH kw Record_init r tokens_ok_init). now rewrite P.
  - apply (IH (Some k) r1 r); [|exact I].
    apply process_line_update in S.
    now apply (field_update_tokens_ok _ _ _ _ (WordFacts.data_of_trimmed l) S).
  - contradiction.
Qed.

(** In every record [parse] yields: [entry] holds no whitespace; no name
    starts or ends with a semicolon; [definition] and [position] neither
    start nor end with whitespace; every id of [motif] and of [dblinks] is
    a non-empty word without whitespace. *)
Theorem yielded_tokens_ok (handle : list str) (r : GeneRecord) :
  In r (yielded handle) -> tokens_ok r.
Proof.
  unfold yielded, parse. apply parse_from_tokens_ok, tokens_ok_init.
Qed.

Lemma yielded_tokens_ok_witness :
  tokens_ok
    {| entry := py "b1174"; name := [py "minE"]; definition := [];
       orthology := []; organism := None; position := []; motif := [];
       dblinks := [(py "NCBI-GeneID", [py "12930923"; py "987984"])] |}.
Proof.
  apply (yielded_tokens_ok sample). left. reflexivity.
Defined.

(** ** What makes a line raise *)

Lemma unpack2_raise_inv (parts : list str) (e : exn) :
  unpack2 parts = Raise e -> e = ValueError /\ List.length parts <> 2.
Proof.
  destruct parts as [|a [|b [|c t]]]; simpl; intros [= <-];
    split; try reflexivity; discriminate.
Qed.

Lemma get_last_raise_inv {A : Type} (l : list A) (e : exn) :
  get_last l = Raise e -> e = IndexError /\ l = [].
Proof.
  unfold get_last. destruct (rev l) eqn:R; [|discriminate].
  intros [= <-]. split; [reflexivity|].
  rewrite <- (rev_involutive l), R. reflexivity.
Qed.

Lemma split_ws_none (data : str) :
  trimmed PyStr.isspace data -> PyStr.split_ws data = [] -> data = [].
Proof.
  intros [H _] E. destruct data as [|c t]; [reflexivity|].
  destruct (WordFacts.split_ws_from_first (c :: t) [])
    as (tok & rest & more & S & _).
  { right. exists c, t. split; [reflexivity | now apply (H c t)]. }
  unfold PyStr.split_ws in E. rewrite S in E. discriminate.
Qed.

Lemma handle_field_raise (k d : str) (r : GeneRecord) (e : exn) :
  trimmed PyStr.isspace d ->
  handle_field k d r = Raise e ->
  (e = IndexError /\ k = kw_ENTRY /\ d = [])
  \/ (e = IndexError /\ k = kw_DBLINKS
      /\ PyStr.contains (py ":") d = false /\ dblinks r = [])
  \/ (e = ValueError /\ (k = kw_ORTHOLOGY \/ k = kw_ORGANISM)
      /\ PyStr.count (py "  ") d <> 1)
  \/ (e = ValueError /\ k = kw_MOTIF /\ PyStr.count (py ": ") d <> 1)
  \/ (e = ValueError /\ k = kw_DBLINKS
      /\ PyStr.contains (py ":") d = true /\ PyStr.count (py ": ") d <> 1).
Proof.
  intros D. unfold handle_field.
  destruct (str_eqb k kw_ENTRY) eqn:E1.
  { apply str_eqb_eq in E1. subst k.
    destruct (PyStr.split_ws d) as [|w more] eqn:W; simpl; [|discriminate].
    intros [= <-]. left. repeat split. now apply split_ws_none. }
  destruct (str_eqb k kw_NAME); [discriminate|].
  destruct (str_eqb k kw_DEFINITION); [discriminate|].
  destruct (str_eqb k kw_ORTHOLOGY) eqn:E4.
  { apply str_eqb_eq in E4. subst k.
    destruct (unpack2 (PyStr.split (py "  ") d)) as [[a b]|e'] eqn:U;
      simpl; [discriminate|].
    intros [= <-]. apply unpack2_raise_inv in U. destruct U as [-> L].
    rewrite (PyStrFacts.split_length _ two_spaces_nonempty) in L.
    right; right; left. repeat split; [now left | exact (fun X => L (f_equal S X))]. }
  destruct (str_eqb k kw_ORGANISM) eqn:E5.
  { apply str_eqb_eq in E5. subst k.
    destruct (unpack2 (PyStr.split (py "  ") d)) as [[a b]|e'] eqn:U;
      simpl; [discriminate|].
    intros [= <-]. apply unpack2_raise_inv in U. destruct U as [-> L].
    rewrite (PyStrFacts.split_length _ two_spaces_nonempty) in L.
    right; right; left. repeat split; [now right | exact (fun X => L (f_equal S X))]. }
  destruct (str_eqb k kw_POSITION); [discriminate|].
  destruct (str_eqb k kw_MOTIF) eqn:E7.
  { apply str_eqb_eq in E7. subst k.
    destruct (unpack2 (PyStr.split (py ": ") d)) as [[a b]|e'] eqn:U;
      simpl; [discriminate|].
    intros [= <-]. apply unpack2_raise_inv in U. destruct U as [-> L].
    rewrite (PyStrFacts.split_length _ colon_space_nonempty) in L.
    right; right; right; left. repeat split. exact (fun X => L (f_equal S X)). }
  destruct (str_eqb k kw_DBLINKS) eqn:E8; [|discriminate].
  apply str_eqb_eq in E8. subst k.
  destruct (PyStr.contains (py ":") d) eqn:C.
  - destruct (unpack2 (PyStr.split (py ": ") d)) as [[a b]|e'] eqn:U;
      simpl; [discriminate|].
    intros [= <-]. apply unpack2_raise_inv in U. destruct U as [-> L].
    rewrite (PyStrFacts.split_length _ colon_space_nonempty) in L.
    right; right; right; right. repeat split. exact (fun X => L (f_equal S X)).
  - destruct (get_last (dblinks r)) as [[key values]|e'] eqn:G; simpl.
    + destruct (get_last_inv _ _ G) as (front & F).
      rewrite F, set_last_app. discriminate.
    + intros [= <-]. apply get_last_raise_inv in G. destruct G as [-> N].
      right; left. now repeat split.
Qed.

(** The only ways a line makes [parse] raise: a blank label while no
    keyword was ever set ([UnboundLocalError]); an ENTRY line without data
    or a DBLINKS line without colon in a record without DBLINKS pair
    ([IndexError]); an ORTHOLOGY or ORGANISM line without exactly one
    double-space separator, or a MOTIF line or a DBLINKS line with a colon
    without exactly one [": "] separator ([ValueError]).  NAME, DEFINITION
    and POSITION lines and lines of other labels never raise. *)
Theorem line_failure_causes
    (kw : option str) (r : GeneRecord) (line : str) (e : exn) :
  process_line kw r line = Failed e ->
  let data := data_of line in
  let k := next_keyword kw line in
  (e = UnboundLocalError /\ kw = None /\ firstn 12 line = blank_label)
  \/ (e = IndexError /\ k = Some kw_ENTRY /\ data = [])
  \/ (e = IndexError /\ k = Some kw_DBLINKS
      /\ PyStr.contains (py ":") data = false /\ dblinks r = [])
  \/ (e = ValueError /\ (k = Some kw_ORTHOLOGY \/ k = Some kw_ORGANISM)
      /\ PyStr.count (py "  ") data <> 1)
  \/ (e = ValueError /\ k = Some kw_MOTIF
      /\ PyStr.count (py ": ") data <> 1)
  \/ (e = ValueError /\ k = Some kw_DBLINKS
      /\ PyStr.contains (py ":") data = true
      /\ PyStr.count (py ": ") data <> 1).
Proof.
  unfold process_line. destruct (is_terminator line); [discriminate|].
  destruct (next_keyword kw line) as [k|] eqn:K.
  - destruct (handle_field k (data_of line) r) as [r'|e'] eqn:H;
      [discriminate|].
    intros [= <-]. cbv zeta.
    apply (handle_field_raise _ _ _ _ (WordFacts.data_of_trimmed line)) in H.
    destruct H as [(-> & -> & D)|[(-> & -> & C & D)|[(-> & O & C)|
                  [(-> & -> & C)|(-> & -> & C & D)]]]].
    + right; left. now repeat split.
    + right; right; left. now repeat split.
    + right; right; right; left. repeat split; [|exact C].
      destruct O as [-> | ->]; [now left | now right].
    + right; right; right; right; left. now repeat split.
    + right; right; right; right; right. now repeat split.
  - intros [= <-]. left. unfold next_keyword in K.
    destruct (str_eqb (firstn 12 line) blank_label) eqn:B; [|discriminate].
    simpl in K. apply str_eqb_eq in B. now repeat split.
Qed.

Lemma line_failure_causes_witness :
  let line := py "ENTRY       " ++ LF in
  let data := data_of line in
  let k := next_keyword None line in
  (IndexError = UnboundLocalError /\ @None str = None
   /\ firstn 12 line = blank_label)
  \/ (IndexError = IndexError /\ k = Some kw_ENTRY /\ data = [])
  \/ (IndexError = IndexError /\ k = Some kw_DBLINKS
      /\ PyStr.contains (py ":") data = false /\ dblinks Record_init = [])
  \/ (IndexError = ValueError /\ (k = Some kw_ORTHOLOGY \/ k = Some kw_ORGANISM)
      /\ PyStr.count (py "  ") data <> 1)
  \/ (IndexError = ValueError /\ k = Some kw_MOTIF
      /\ PyStr.count (py ": ") data <> 1)
  \/ (IndexError = ValueError /\ k = Some kw_DBLINKS
      /\ PyStr.contains (py ":") data = true
      /\ PyStr.count (py ": ") data <> 1).
Proof.
  exact (line_failure_causes None Record_init (py "ENTRY       " ++ LF)
           IndexError eq_refl).
Defined.
